(** * LiquorLovers: party access policy and invitation lifecycle

    A shallow embedding of [party/views.py]: the two view sets
    [PartyViewSet] and [PartyInvitationViewSet], written as computations
    over an explicit record store, and the properties of the
    authorization and membership rules they implement.

    Users are identified by their [public_id] (a string token); comparing
    two users, as the views do with [!=] and [in], is comparing these
    identifiers.  The store keeps parties and invitations in insertion
    order, which is the order a queryset without [order_by] lists them in. *)

From stdpp Require Import gmap strings list fin_maps.

Open Scope string_scope.

(** ** Data model *)

Module Party.
(** A row of [Party].  [participants] is the many-to-many relation to
    users; [attrs] stands for the remaining serialized columns. *)
Record t := mk {
  public_id : string;
  owner : string;
  participants : gset string;
  attrs : gmap string string
}.

(** Modelled from the spec: [Party.can_see_party] of [party/models.py],
    which is not part of the sources at hand.  True iff the actor is the
    owner or is in the participants. *)
Definition can_see_party (party : t) (user : string) : bool :=
  bool_decide (owner party = user) || bool_decide (user ∈ participants party).
End Party.

Module PartyInvitation.
(** A row of [PartyInvitation]: its existence means "pending".  [party]
    is the foreign key to the target party, kept as that party's
    [public_id]. *)
Record t := mk {
  pk : nat;
  party : string;
  receiver : string
}.
End PartyInvitation.

Record Store := mkStore {
  users : gset string;
  parties : list Party.t;
  invitations : list PartyInvitation.t;
  next_pk : nat
}.

(** ** Responses and the view monad *)

Inductive Status :=
| HTTP_200_OK
| HTTP_201_CREATED
| HTTP_204_NO_CONTENT
| HTTP_400_BAD_REQUEST
| HTTP_403_FORBIDDEN
| HTTP_404_NOT_FOUND.

Inductive Body :=
| NoData
| PartyData (p : Party.t)
| PartyListData (ps : list Party.t)
| InvitationListData (invs : list PartyInvitation.t).

Record Response := mkResponse {
  status_code : Status;
  data : Body
}.

(** The two exceptions a view can raise: [Http404] from [get_object] and
    [get_object_or_404], [ValidationError] from
    [is_valid(raise_exception=True)]. *)
Inductive APIException := Http404 | ValidationError.

Inductive Outcome (A : Type) :=
| Return (a : A)
| Raise (e : APIException).
Arguments Return {A} a.
Arguments Raise {A} e.

(** A view step reads and writes the store and either yields a value or
    raises; the store it leaves is the one reached when it stopped. *)
Definition View (A : Type) : Type := Store → Outcome A * Store.

Global Instance View_ret : MRet View := λ A a st, (Return a, st).

Global Instance View_bind : MBind View := λ A B k m st,
  match m st with
  | (Return a, st') => k a st'
  | (Raise e, st') => (Raise e, st')
  end.

Definition raise {A} (e : APIException) : View A := λ st, (Raise e, st).

Definition get_store : View Store := λ st, (Return st, st).

(** What the framework's exception handler turns a finished view into. *)
Definition dispatch (v : View Response) (st : Store) : Response * Store :=
  match v st with
  | (Return r, st') => (r, st')
  | (Raise Http404, st') => (mkResponse HTTP_404_NOT_FOUND NoData, st')
  | (Raise ValidationError, st') => (mkResponse HTTP_400_BAD_REQUEST NoData, st')
  end.

(** ** The record store *)

Definition find_party (public_id : string) (st : Store) : option Party.t :=
  List.find (λ p, bool_decide (Party.public_id p = public_id)) (parties st).

Definition find_invitation (pk : nat) (st : Store) : option PartyInvitation.t :=
  List.find (λ i, bool_decide (PartyInvitation.pk i = pk)) (invitations st).

(** [get_object_or_404(Party, public_id=...)]. *)
Definition get_party_or_404 (public_id : string) : View Party.t :=
  λ st, match find_party public_id st with
        | Some p => (Return p, st)
        | None => (Raise Http404, st)
        end.

(** The lookup of an invitation by its key.  The key column is a 64-bit
    integer: the statements about keys that name no row are made for
    keys in that range, see [pk_in_range]. *)
Definition get_invitation_or_404 (pk : nat) : View PartyInvitation.t :=
  λ st, match find_invitation pk st with
        | Some i => (Return i, st)
        | None => (Raise Http404, st)
        end.

Definition on_party (public_id : string) (f : Party.t → Party.t)
    (ps : list Party.t) : list Party.t :=
  List.map (λ q, if bool_decide (Party.public_id q = public_id) then f q else q) ps.
Arguments on_party : simpl never.

(** [party.save()]: writes the instance's own columns to its row.  The
    participants live in the relation table and are not written. *)
Definition party_save (p : Party.t) : View unit :=
  λ st, (Return tt,
         mkStore (users st)
           (on_party (Party.public_id p)
              (λ q, Party.mk (Party.public_id p) (Party.owner p)
                             (Party.participants q) (Party.attrs p))
              (parties st))
           (invitations st) (next_pk st)).

(** [party.participants.add(user)]: adding a user already there changes
    nothing. *)
Definition participants_add (public_id user : string) : View unit :=
  λ st, (Return tt,
         mkStore (users st)
           (on_party public_id
              (λ q, Party.mk (Party.public_id q) (Party.owner q)
                             ({[user]} ∪ Party.participants q) (Party.attrs q))
              (parties st))
           (invitations st) (next_pk st)).

(** [party.participants.remove(user)]. *)
Definition participants_remove (public_id user : string) : View unit :=
  λ st, (Return tt,
         mkStore (users st)
           (on_party public_id
              (λ q, Party.mk (Party.public_id q) (Party.owner q)
                             (Party.participants q ∖ {[user]}) (Party.attrs q))
              (parties st))
           (invitations st) (next_pk st)).

(** Modelled from the spec: the foreign key of [PartyInvitation] is
    declared in [party/models.py], which is not part of the sources at
    hand.  [party.delete()] removes the row and cascades to the
    invitations of the party. *)
Definition party_delete (p : Party.t) : View unit :=
  λ st, (Return tt,
         mkStore (users st)
           (List.filter (λ q, negb (bool_decide (Party.public_id q = Party.public_id p)))
              (parties st))
           (List.filter (λ i, negb (bool_decide (PartyInvitation.party i = Party.public_id p)))
              (invitations st))
           (next_pk st)).

(** [invitation.delete()]. *)
Definition invitation_delete (i : PartyInvitation.t) : View unit :=
  λ st, (Return tt,
         mkStore (users st) (parties st)
           (List.filter (λ j, negb (bool_decide (PartyInvitation.pk j = PartyInvitation.pk i)))
              (invitations st))
           (next_pk st)).

(** Modelled from the spec: [PartyInvitation.accept] of [party/models.py],
    which is not part of the sources at hand.  Acceptance adds the receiver
    to the participants of the target party and removes the invitation. *)
Definition invitation_accept (i : PartyInvitation.t) : View unit :=
  participants_add (PartyInvitation.party i) (PartyInvitation.receiver i);;
  invitation_delete i.

(** ** Serializers *)

Module PartySerializer.
Section Fields.
(** The fields of a party other than its owner are not named by the
    spec: [field_ok] is their field-level validation and [required] lists
    those that a non-partial payload must carry. *)
Variable field_ok : string → string → bool.
Variable required : list string.

Record validated := mkValidated {
  v_owner : option string;
  v_attrs : gmap string string
}.

(** Modelled from the spec: [PartySerializer] of [party/serializers.py],
    which is not part of the sources at hand.  The views write the owner
    into the payload under the key [owner_public_id], so that is the
    field the serializer reads the owner from; it must name a stored
    user.  A partial payload may leave out any field. *)
Definition is_valid (partial : bool) (data : gmap string string) : View validated :=
  st ← get_store;
  let rest := delete "owner_public_id" data in
  if negb (forallb (λ kv, field_ok kv.1 kv.2) (map_to_list rest)) then
    raise ValidationError
  else if negb partial
          && negb (forallb (λ k, bool_decide (is_Some (rest !! k))) required) then
    raise ValidationError
  else
    match data !! "owner_public_id" with
    | Some u =>
        if bool_decide (u ∈ users st) then mret (mkValidated (Some u) rest)
        else raise ValidationError
    | None =>
        if partial then mret (mkValidated None rest) else raise ValidationError
    end.

(** [serializer.save()] without an instance: a new row, whose
    [public_id] is the token [fresh] drawn by the model's default. *)
Definition create (fresh : string) (v : validated) : View Party.t :=
  match v_owner v with
  | Some u =>
      λ st, let p := Party.mk fresh u ∅ (v_attrs v) in
            (Return p,
             mkStore (users st) (parties st ++ [p]) (invitations st) (next_pk st))
  | None => raise ValidationError
  end.

(** [serializer.save()] on an instance: the validated fields are set on
    it, the others keep their value, and the instance is saved. *)
Definition update (instance : Party.t) (v : validated) : View Party.t :=
  let p := Party.mk (Party.public_id instance)
                    (default (Party.owner instance) (v_owner v))
                    (Party.participants instance)
                    (v_attrs v ∪ Party.attrs instance) in
  party_save p;;
  mret p.
End Fields.
End PartySerializer.

Module PartyInvitationSerializer.
(** Modelled from the spec: [PartyInvitationSerializer] of
    [party/serializers.py], which is not part of the sources at hand.
    The view writes the target party into the payload under the key
    [party_public_id]; the receiver is read from [receiver_public_id] by
    analogy.  Both are required and must resolve in the store. *)
Definition is_valid (data : gmap string string) : View (string * string) :=
  st ← get_store;
  match data !! "party_public_id", data !! "receiver_public_id" with
  | Some p, Some r =>
      if bool_decide (is_Some (find_party p st)) && bool_decide (r ∈ users st)
      then mret (p, r)
      else raise ValidationError
  | _, _ => raise ValidationError
  end.

(** [serializer.save()]: a new row with a store-assigned [pk]. *)
Definition create (v : string * string) : View PartyInvitation.t :=
  λ st, let i := PartyInvitation.mk (next_pk st) v.1 v.2 in
        (Return i,
         mkStore (users st) (parties st) (invitations st ++ [i]) (S (next_pk st))).
End PartyInvitationSerializer.

(** ** [PartyViewSet] *)

Module PartyViewSet.
Section Views.
Variable field_ok : string → string → bool.
Variable required : list string.

(** [lookup_field = 'public_id'], [queryset = Party.objects.all()]. *)
Definition get_object (public_id : string) : View Party.t :=
  get_party_or_404 public_id.

Definition get_queryset : View (list Party.t) :=
  st ← get_store; mret (parties st).

(** [request.data['owner_public_id'] = request.user.public_id], then the
    inherited [create].  [data] is the dict of a JSON body, which the
    assignment can write to. *)
Definition create (user fresh : string) (data : gmap string string) : View Response :=
  let data := <["owner_public_id" := user]> data in
  v ← PartySerializer.is_valid field_ok required false data;
  p ← PartySerializer.create fresh v;
  mret (mkResponse HTTP_201_CREATED (PartyData p)).

Definition retrieve (user public_id : string) : View Response :=
  party ← get_object public_id;
  if negb (Party.can_see_party party user) then
    mret (mkResponse HTTP_403_FORBIDDEN NoData)
  else
    mret (mkResponse HTTP_200_OK (PartyData party)).

Definition list (user : string) : View Response :=
  all ← get_queryset;
  let queryset := List.filter (λ p, Party.can_see_party p user) all in
  mret (mkResponse HTTP_200_OK (PartyListData queryset)).

(** [request.user.parties_where_im_owner]: the reverse side of the
    owner foreign key. *)
Definition list_mine (user : string) : View Response :=
  st ← get_store;
  let queryset := List.filter (λ p, bool_decide (Party.owner p = user)) (parties st) in
  mret (mkResponse HTTP_200_OK (PartyListData queryset)).

Definition update (user public_id : string) (data : gmap string string) : View Response :=
  obj ← get_object public_id;
  if bool_decide (Party.owner obj ≠ user) then
    mret (mkResponse HTTP_403_FORBIDDEN NoData)
  else
    let data := <["owner_public_id" := user]> data in
    instance ← get_object public_id;
    v ← PartySerializer.is_valid field_ok required false data;
    p ← PartySerializer.update instance v;
    mret (mkResponse HTTP_200_OK (PartyData p)).

Definition partial_update (user public_id : string) (data : gmap string string)
    : View Response :=
  obj ← get_object public_id;
  if bool_decide (Party.owner obj ≠ user) then
    mret (mkResponse HTTP_403_FORBIDDEN NoData)
  else
    instance ← get_object public_id;
    v ← PartySerializer.is_valid field_ok required true data;
    p ← PartySerializer.update instance v;
    mret (mkResponse HTTP_200_OK (PartyData p)).

Definition destroy (user public_id : string) : View Response :=
  party ← get_object public_id;
  if bool_decide (Party.owner party ≠ user)
     && bool_decide (user ∉ Party.participants party) then
    mret (mkResponse HTTP_403_FORBIDDEN NoData)
  else if bool_decide (Party.owner party ≠ user) then
    participants_remove (Party.public_id party) user;;
    party_save party;;
    mret (mkResponse HTTP_204_NO_CONTENT NoData)
  else
    party_delete party;;
    mret (mkResponse HTTP_204_NO_CONTENT NoData).

End Views.
End PartyViewSet.

(** ** [PartyInvitationViewSet] *)

Module PartyInvitationViewSet.
(** [lookup_field = 'pk'], [queryset = PartyInvitation.objects.all()]. *)
Definition get_object (pk : nat) : View PartyInvitation.t :=
  get_invitation_or_404 pk.

Definition get_queryset : View (Datatypes.list PartyInvitation.t) :=
  st ← get_store; mret (invitations st).

(** [get_object_or_404(Party, public_id=self.kwargs['party_public_id'])]. *)
Definition get_party (party_public_id : string) : View Party.t :=
  get_party_or_404 party_public_id.

Definition create (user party_public_id : string) (data : gmap string string)
    : View Response :=
  party ← get_party party_public_id;
  if bool_decide (user ≠ Party.owner party) then
    mret (mkResponse HTTP_403_FORBIDDEN NoData)
  else
    v ← PartyInvitationSerializer.is_valid
          (<["party_public_id" := Party.public_id party]> data);
    _ ← PartyInvitationSerializer.create v;
    mret (mkResponse HTTP_201_CREATED NoData).

Definition accept (user : string) (pk : nat) : View Response :=
  invitation ← get_object pk;
  if bool_decide (user ≠ PartyInvitation.receiver invitation) then
    mret (mkResponse HTTP_204_NO_CONTENT NoData)
  else
    invitation_accept invitation;;
    mret (mkResponse HTTP_201_CREATED NoData).

Definition list (user party_public_id : string) : View Response :=
  party ← get_party party_public_id;
  if bool_decide (user ≠ Party.owner party) then
    mret (mkResponse HTTP_403_FORBIDDEN NoData)
  else
    all ← get_queryset;
    let queryset :=
      List.filter (λ i, bool_decide (PartyInvitation.party i = Party.public_id party))
        all in
    mret (mkResponse HTTP_200_OK (InvitationListData queryset)).

Definition list_mine (user : string) : View Response :=
  all ← get_queryset;
  let queryset :=
    List.filter (λ i, bool_decide (PartyInvitation.receiver i = user)) all in
  mret (mkResponse HTTP_200_OK (InvitationListData queryset)).

Definition destroy (user party_public_id : string) (pk : nat) : View Response :=
  invitation ← get_object pk;
  party ← get_party party_public_id;
  if bool_decide (user ∉ [Party.owner party; PartyInvitation.receiver invitation]) then
    mret (mkResponse HTTP_403_FORBIDDEN NoData)
  else
    invitation_delete invitation;;
    mret (mkResponse HTTP_204_NO_CONTENT NoData).
End PartyInvitationViewSet.

(** ** A small store

    Users [u1]..[u4]; party [P] owned by [u1] with participant [u4]; party
    [Q] owned by [u3] without participants; one pending invitation, for
    [u2] on [P]. *)

Definition party_P : Party.t := Party.mk "P" "u1" {["u4"]} ∅.
Definition party_Q : Party.t := Party.mk "Q" "u3" ∅ ∅.
Definition invitation_1 : PartyInvitation.t := PartyInvitation.mk 1 "P" "u2".

Definition sample_store : Store :=
  mkStore {["u1"; "u2"; "u3"; "u4"]} [party_P; party_Q] [invitation_1] 2.

(** A serializer configuration for the examples: every field value is
    accepted and no further field is required. *)
Definition any_field : string → string → bool := λ _ _, true.

(** ** Store-assigned keys

    The primary keys of the stored invitations are pairwise different and
    all below the next key the store hands out. *)

Definition invitation_pks_wf (st : Store) : Prop :=
  Forall (λ i, PartyInvitation.pk i < next_pk st) (invitations st)
  ∧ NoDup (PartyInvitation.pk <$> invitations st).

Global Instance invitation_pks_wf_dec (st : Store) : Decision (invitation_pks_wf st).
Proof. unfold invitation_pks_wf. apply _. Defined.

(** The keys the 64-bit key column can hold.  A lookup with a larger key
    fails in the database layer before it reaches the rows. *)
Definition pk_in_range (pk : nat) : Prop := (Z.of_nat pk < 2 ^ 63)%Z.

(** A view step preserves a property of the store when the store it
    leaves has the property whenever the store it started from has it,
    whether it returns or raises. *)
Definition preserves (P : Store → Prop) {A} (v : View A) : Prop :=
  ∀ st, P st → P (v st).2.

(** ** Reasoning support *)

(** Unfolds the monad plumbing so that a view applied to a store reduces
    to the [match]es on the store lookups it performs. *)
Ltac view_unfold :=
  unfold dispatch, PartyViewSet.get_object, PartyViewSet.get_queryset,
    PartyInvitationViewSet.get_object, PartyInvitationViewSet.get_queryset,
    PartyInvitationViewSet.get_party, get_party_or_404, get_invitation_or_404,
    invitation_accept, invitation_delete, participants_add, participants_remove,
    party_save, party_delete, get_store, raise,
    mbind, View_bind, mret, View_ret in *;
  cbn beta iota.

Section StoreLemmas.
Implicit Types (st : Store) (p q : Party.t) (i : PartyInvitation.t).

Lemma find_party_public_id st public_id p :
  find_party public_id st = Some p → Party.public_id p = public_id.
Proof.
  unfold find_party. intros H. apply List.find_some in H as [_ H].
  by apply bool_decide_eq_true in H.
Qed.

Lemma find_invitation_pk st pk i :
  find_invitation pk st = Some i → PartyInvitation.pk i = pk.
Proof.
  unfold find_invitation. intros H. apply List.find_some in H as [_ H].
  by apply bool_decide_eq_true in H.
Qed.

Lemma find_filter_negb {A} (f : A → bool) (l : list A) :
  List.find f (List.filter (λ x, negb (f x)) l) = None.
Proof.
  induction l as [|x l IH]; [done|]. cbn.
  destruct (f x) eqn:E; cbn; [done|]. by rewrite E.
Qed.

Lemma find_filter_other {A} (f g : A → bool) (l : list A) :
  (∀ x, f x = true → g x = true) →
  List.find f (List.filter g l) = List.find f l.
Proof.
  intros Hfg. induction l as [|x l IH]; [done|]. cbn.
  destruct (g x) eqn:G; cbn.
  - by rewrite IH.
  - destruct (f x) eqn:F; [|done]. apply Hfg in F. congruence.
Qed.

Lemma find_on_party public_id (f : Party.t → Party.t) (ps : list Party.t) id' :
  (∀ q, Party.public_id q = public_id → Party.public_id (f q) = public_id) →
  List.find (λ p, bool_decide (Party.public_id p = id')) (on_party public_id f ps)
  = if bool_decide (public_id = id')
    then f <$> List.find (λ p, bool_decide (Party.public_id p = id')) ps
    else List.find (λ p, bool_decide (Party.public_id p = id')) ps.
Proof.
  intros Hf. unfold on_party. induction ps as [|q ps IH]; cbn.
  - by case_bool_decide.
  - destruct (decide (Party.public_id q = public_id)) as [Hq|Hq].
    + rewrite (bool_decide_eq_true_2 _ Hq). rewrite (Hf q Hq).
      destruct (decide (public_id = id')) as [->|Hne].
      * rewrite !bool_decide_eq_true_2 by done. done.
      * rewrite (bool_decide_eq_false_2 (public_id = id')) by done.
        rewrite (bool_decide_eq_false_2 (public_id = id')) in IH by done.
        rewrite (bool_decide_eq_false_2 (Party.public_id q = id')) by congruence.
        done.
    + rewrite (bool_decide_eq_false_2 _ Hq).
      destruct (bool_decide (Party.public_id q = id')) eqn:E.
      * apply bool_decide_eq_true in E.
        rewrite (bool_decide_eq_false_2 (public_id = id')) by congruence. done.
      * apply IH.
Qed.

Lemma elem_of_pair (x a b : string) : x ∈ [a; b] ↔ x = a ∨ x = b.
Proof. rewrite !elem_of_cons, elem_of_nil. tauto. Qed.
End StoreLemmas.

(** ** Party access policy *)

(** C5: single-party retrieval returns the party's data iff the actor is
    its owner or one of its participants, and signals forbidden otherwise;
    the list operation returns exactly the parties of the store the actor
    can see, in the order of the store. *)
Theorem retrieve_and_list_follow_can_see (st : Store) (user public_id : string)
    (p : Party.t) :
  find_party public_id st = Some p →
  (Party.can_see_party p user = true
     ↔ Party.owner p = user ∨ user ∈ Party.participants p)
  ∧ (Party.owner p = user ∨ user ∈ Party.participants p →
     dispatch (PartyViewSet.retrieve user public_id) st
     = (mkResponse HTTP_200_OK (PartyData p), st))
  ∧ (¬ (Party.owner p = user ∨ user ∈ Party.participants p) →
     dispatch (PartyViewSet.retrieve user public_id) st
     = (mkResponse HTTP_403_FORBIDDEN NoData, st))
  ∧ dispatch (PartyViewSet.list user) st
    = (mkResponse HTTP_200_OK
         (PartyListData
            (List.filter
               (λ q, bool_decide (Party.owner q = user ∨ user ∈ Party.participants q))
               (parties st))),
       st).
Proof.
  intros Hfind.
  assert (Hsee : ∀ q, Party.can_see_party q user
                      = bool_decide (Party.owner q = user ∨ user ∈ Party.participants q)).
  { intros q. unfold Party.can_see_party.
    repeat case_bool_decide; cbn; tauto || done. }
  split; [|split; [|split]].
  - rewrite Hsee. apply bool_decide_eq_true.
  - intros Hyes. unfold PartyViewSet.retrieve. view_unfold.
    rewrite Hfind, Hsee, bool_decide_eq_true_2 by done. done.
  - intros Hno. unfold PartyViewSet.retrieve. view_unfold.
    rewrite Hfind, Hsee, bool_decide_eq_false_2 by done. done.
  - unfold PartyViewSet.list. view_unfold.
    do 3 f_equal. apply List.filter_ext. intros q. apply Hsee.
Qed.

Lemma retrieve_and_list_follow_can_see_witness :
  dispatch (PartyViewSet.retrieve "u4" "P") sample_store
  = (mkResponse HTTP_200_OK (PartyData party_P), sample_store)
  ∧ dispatch (PartyViewSet.retrieve "u1" "Q") sample_store
    = (mkResponse HTTP_403_FORBIDDEN NoData, sample_store).
Proof.
  split.
  - apply (retrieve_and_list_follow_can_see sample_store "u4" "P" party_P);
      [reflexivity|].
    right. apply (bool_decide_unpack _). vm_compute. exact I.
  - apply (retrieve_and_list_follow_can_see sample_store "u1" "Q" party_Q);
      [reflexivity|].
    intros H. apply (bool_decide_pack _) in H. vm_compute in H. exact H.
Defined.

Lemma size_remove_participant (ps : gset string) (user : string) :
  user ∈ ps → size (ps ∖ {[user]}) + 1 = size ps.
Proof.
  intros Hin.
  assert (Hsub : ({[user]} : gset string) ⊆ ps) by set_solver.
  rewrite (size_difference _ _ Hsub), size_singleton.
  apply subseteq_size in Hsub. rewrite size_singleton in Hsub. lia.
Qed.

(** C4: deleting a party has exactly three outcomes.  The owner deletes
    the whole party; a participant who is not the owner is removed from
    the participants, the party staying with one participant fewer and
    the same owner; anyone else is forbidden and nothing changes. *)
Theorem destroy_three_outcomes (st : Store) (user public_id : string) (p : Party.t) :
  find_party public_id st = Some p →
  (Party.owner p = user →
     ∃ st', dispatch (PartyViewSet.destroy user public_id) st
              = (mkResponse HTTP_204_NO_CONTENT NoData, st')
            ∧ find_party public_id st' = None
            ∧ ∀ id', id' ≠ public_id → find_party id' st' = find_party id' st)
  ∧ (Party.owner p ≠ user → user ∈ Party.participants p →
     ∃ st', dispatch (PartyViewSet.destroy user public_id) st
              = (mkResponse HTTP_204_NO_CONTENT NoData, st')
            ∧ find_party public_id st'
              = Some (Party.mk (Party.public_id p) (Party.owner p)
                               (Party.participants p ∖ {[user]}) (Party.attrs p))
            ∧ size (Party.participants p ∖ {[user]}) + 1 = size (Party.participants p)
            ∧ (∀ id', id' ≠ public_id → find_party id' st' = find_party id' st)
            ∧ invitations st' = invitations st)
  ∧ (Party.owner p ≠ user → user ∉ Party.participants p →
     dispatch (PartyViewSet.destroy user public_id) st
     = (mkResponse HTTP_403_FORBIDDEN NoData, st)).
Proof.
  intros Hfind. pose proof (find_party_public_id _ _ _ Hfind) as Hid.
  split; [|split].
  - intros Hown. eexists. split; [|split].
    + unfold PartyViewSet.destroy. view_unfold. rewrite Hfind.
      rewrite (bool_decide_eq_false_2 (Party.owner p ≠ user)) by tauto.
      cbn. reflexivity.
    + unfold find_party. cbn. rewrite Hid.
      apply (find_filter_negb (λ q, bool_decide (Party.public_id q = public_id))).
    + intros id' Hne. unfold find_party. cbn. apply find_filter_other.
      intros q Hq. apply bool_decide_eq_true in Hq.
      rewrite bool_decide_eq_false_2 by congruence. done.
  - intros Hown Hin. eexists. split; [|split; [|split; [|split]]].
    + unfold PartyViewSet.destroy. view_unfold. rewrite Hfind.
      rewrite (bool_decide_eq_true_2 (Party.owner p ≠ user)) by done.
      rewrite (bool_decide_eq_false_2 (user ∉ Party.participants p)) by tauto.
      cbn. reflexivity.
    + unfold find_party in *. cbn. rewrite Hid.
      rewrite !find_on_party by (cbn; done).
      rewrite bool_decide_eq_true_2 by done. rewrite Hfind. done.
    + by apply size_remove_participant.
    + intros id' Hne. unfold find_party. cbn. rewrite Hid.
      rewrite !find_on_party by (cbn; done).
      by rewrite bool_decide_eq_false_2 by done.
    + done.
  - intros Hown Hout. unfold PartyViewSet.destroy. view_unfold. rewrite Hfind.
    rewrite (bool_decide_eq_true_2 (Party.owner p ≠ user)) by done.
    rewrite (bool_decide_eq_true_2 (user ∉ Party.participants p)) by done.
    done.
Qed.

Lemma destroy_three_outcomes_witness :
  (∃ st', dispatch (PartyViewSet.destroy "u1" "P") sample_store
            = (mkResponse HTTP_204_NO_CONTENT NoData, st')
          ∧ find_party "P" st' = None)
  ∧ (∃ st', dispatch (PartyViewSet.destroy "u4" "P") sample_store
              = (mkResponse HTTP_204_NO_CONTENT NoData, st')
            ∧ find_party "P" st' = Some (Party.mk "P" "u1" ({["u4"]} ∖ {["u4"]}) ∅))
  ∧ dispatch (PartyViewSet.destroy "u2" "P") sample_store
    = (mkResponse HTTP_403_FORBIDDEN NoData, sample_store).
Proof.
  split; [|split].
  - destruct (destroy_three_outcomes sample_store "u1" "P" party_P eq_refl)
      as [H _].
    destruct (H eq_refl) as (st' & Hr & Hgone & _). by exists st'.
  - destruct (destroy_three_outcomes sample_store "u4" "P" party_P eq_refl)
      as (_ & H & _).
    destruct H as (st' & Hr & Hkept & _).
    + discriminate.
    + apply (bool_decide_unpack _). vm_compute. exact I.
    + by exists st'.
  - destruct (destroy_three_outcomes sample_store "u2" "P" party_P eq_refl)
      as (_ & _ & H).
    apply H.
    + discriminate.
    + intros Hin. apply (bool_decide_pack _) in Hin. vm_compute in Hin. exact Hin.
Defined.

(** ** Ownership on create and update *)

Section Ownership.
Variable field_ok : string → string → bool.
Variable required : list string.

(** A party that [create] stores is owned by the requester, whatever
    owner the payload names. *)
Lemma create_owner_is_requester (st st' : Store) (user fresh : string)
    (payload : gmap string string) (r : Response) :
  dispatch (PartyViewSet.create field_ok required user fresh payload) st = (r, st') →
  status_code r = HTTP_201_CREATED →
  ∃ a, r = mkResponse HTTP_201_CREATED (PartyData (Party.mk fresh user ∅ a))
       ∧ parties st' = (parties st ++ [Party.mk fresh user ∅ a])%list.
Proof.
  unfold PartyViewSet.create, PartySerializer.is_valid, PartySerializer.create.
  view_unfold. rewrite lookup_insert_eq.
  repeat (match goal with |- context [if ?b then _ else _] => destruct b end;
          cbn);
    intros [= <- <-]; cbn; try discriminate.
  intros _. eexists. split; reflexivity.
Qed.

(** A full update that succeeds leaves the party with the owner it had:
    the requester. *)
Lemma update_keeps_owner (st st' : Store) (user public_id : string)
    (payload : gmap string string) (r : Response) :
  dispatch (PartyViewSet.update field_ok required user public_id payload) st = (r, st') →
  status_code r = HTTP_200_OK →
  ∃ p p', find_party public_id st = Some p ∧ Party.owner p = user
          ∧ find_party public_id st' = Some p' ∧ Party.owner p' = user.
Proof.
  unfold PartyViewSet.update, PartySerializer.is_valid, PartySerializer.update.
  view_unfold.
  destruct (find_party public_id st) as [p|] eqn:Hfind; [|intros [= <- <-]; done].
  pose proof (find_party_public_id _ _ _ Hfind) as Hid.
  case_bool_decide as Hown; [intros [= <- <-]; done|].
  cbn. rewrite Hfind, lookup_insert_eq.
  repeat (match goal with |- context [if ?b then _ else _] => destruct b end;
          cbn);
    intros [= <- <-]; cbn; try discriminate.
  intros _. exists p. eexists. split; [done|]. split; [done|]. split.
  - unfold find_party in *. cbn. rewrite Hid.
    rewrite find_on_party by (cbn; done).
    rewrite bool_decide_eq_true_2 by done. rewrite Hfind. reflexivity.
  - done.
Qed.
End Ownership.

(** C1: a partial update does not replace the owner field of the payload:
    the owner [u1] of [P] sends [owner_public_id = u2], the update
    succeeds, and the stored owner of [P] is [u2], for every
    configuration of the remaining serializer fields. *)
Theorem partial_update_reassigns_owner (field_ok : string → string → bool)
    (required : list string) :
  let payload : gmap string string := {["owner_public_id" := "u2"]} in
  let hijacked := Party.mk "P" "u2" {["u4"]} ∅ in
  dispatch (PartyViewSet.partial_update field_ok required "u1" "P" payload) sample_store
  = (mkResponse HTTP_200_OK (PartyData hijacked),
     mkStore (users sample_store) [hijacked; party_Q]
       (invitations sample_store) (next_pk sample_store))
  ∧ Party.owner party_P = "u1"
  ∧ Party.owner hijacked ≠ Party.owner party_P.
Proof.
  cbn zeta. split; [|split; [reflexivity|discriminate]].
  vm_compute. reflexivity.
Qed.

(** ** Invitation lifecycle: accept *)

(** C3: when the receiver accepts a pending invitation, the receiver is
    added to the participants of the target party and the invitation
    record is removed; accepting the same identifier again is answered
    with not found. *)
Theorem accept_consumes_invitation (st : Store) (pk : nat)
    (i : PartyInvitation.t) (p : Party.t) :
  find_invitation pk st = Some i →
  find_party (PartyInvitation.party i) st = Some p →
  ∃ st',
    dispatch (PartyInvitationViewSet.accept (PartyInvitation.receiver i) pk) st
    = (mkResponse HTTP_201_CREATED NoData, st')
    ∧ find_party (PartyInvitation.party i) st'
      = Some (Party.mk (Party.public_id p) (Party.owner p)
                       ({[PartyInvitation.receiver i]} ∪ Party.participants p)
                       (Party.attrs p))
    ∧ find_invitation pk st' = None
    ∧ invitations st'
      = List.filter (λ j, negb (bool_decide (PartyInvitation.pk j = pk))) (invitations st)
    ∧ dispatch (PartyInvitationViewSet.accept (PartyInvitation.receiver i) pk) st'
      = (mkResponse HTTP_404_NOT_FOUND NoData, st').
Proof.
  intros Hinv Hparty.
  pose proof (find_invitation_pk _ _ _ Hinv) as Hpk.
  assert (Hgone : List.find (λ j, bool_decide (PartyInvitation.pk j = pk))
                    (List.filter (λ j, negb (bool_decide (PartyInvitation.pk j = pk)))
                       (invitations st)) = None)
    by apply (find_filter_negb (λ j, bool_decide (PartyInvitation.pk j = pk))).
  eexists. split; [|split; [|split; [|split]]].
  - unfold PartyInvitationViewSet.accept. view_unfold. rewrite Hinv.
    rewrite bool_decide_eq_false_2 by tauto. cbn. reflexivity.
  - unfold find_party in *. cbn.
    rewrite find_on_party by (cbn; done).
    rewrite bool_decide_eq_true_2 by done. rewrite Hparty. done.
  - unfold find_invitation. cbn. rewrite Hpk. apply Hgone.
  - cbn. by rewrite Hpk.
  - unfold PartyInvitationViewSet.accept. view_unfold.
    unfold find_invitation. cbn. rewrite Hpk, Hgone. done.
Qed.

Lemma accept_consumes_invitation_witness :
  ∃ st',
    dispatch (PartyInvitationViewSet.accept "u2" 1) sample_store
    = (mkResponse HTTP_201_CREATED NoData, st')
    ∧ find_party "P" st' = Some (Party.mk "P" "u1" ({["u2"]} ∪ {["u4"]}) ∅)
    ∧ find_invitation 1 st' = None
    ∧ dispatch (PartyInvitationViewSet.accept "u2" 1) st'
      = (mkResponse HTTP_404_NOT_FOUND NoData, st').
Proof.
  destruct (accept_consumes_invitation sample_store 1 invitation_1 party_P
              eq_refl eq_refl) as (st' & H1 & H2 & H3 & _ & H5).
  exists st'. done.
Defined.

(** C2 as stated fails: the reply to an actor who is not the receiver
    differs from the reply to the receiver's successful accept, and it
    differs from the reply for an identifier that names no invitation. *)
Lemma accept_wrong_actor_distinguishable :
  find_invitation 1 sample_store = Some invitation_1
  ∧ "u3" ≠ PartyInvitation.receiver invitation_1
  ∧ find_invitation 5 sample_store = None
  ∧ (dispatch (PartyInvitationViewSet.accept "u3" 1) sample_store).1
    ≠ (dispatch (PartyInvitationViewSet.accept "u2" 1) sample_store).1
  ∧ (dispatch (PartyInvitationViewSet.accept "u3" 1) sample_store).1
    ≠ (dispatch (PartyInvitationViewSet.accept "u3" 5) sample_store).1.
Proof.
  split; [reflexivity|]. split; [discriminate|]. split; [reflexivity|].
  split; vm_compute; discriminate.
Qed.

(** C2, amended: for a pending invitation and an actor who is not its
    receiver, accept answers 204 without content and leaves the store as
    it was, however often it is repeated.  The answer does not depend on
    the invitation's receiver or party, but it is not the 201 of a
    successful accept, and a key of the key column's range that names no
    invitation is answered with not found. *)
Theorem accept_wrong_actor_no_effect (st : Store) (user : string) (pk : nat)
    (i : PartyInvitation.t) :
  find_invitation pk st = Some i →
  user ≠ PartyInvitation.receiver i →
  dispatch (PartyInvitationViewSet.accept user pk) st
  = (mkResponse HTTP_204_NO_CONTENT NoData, st)
  ∧ (∀ n, Nat.iter n (λ s, (dispatch (PartyInvitationViewSet.accept user pk) s).2) st
          = st)
  ∧ status_code
      (dispatch (PartyInvitationViewSet.accept (PartyInvitation.receiver i) pk) st).1
    = HTTP_201_CREATED
  ∧ (∀ pk', pk_in_range pk' → find_invitation pk' st = None →
            dispatch (PartyInvitationViewSet.accept user pk') st
            = (mkResponse HTTP_404_NOT_FOUND NoData, st)).
Proof.
  intros Hinv Hne.
  assert (Hone : dispatch (PartyInvitationViewSet.accept user pk) st
                 = (mkResponse HTTP_204_NO_CONTENT NoData, st)).
  { unfold PartyInvitationViewSet.accept. view_unfold. rewrite Hinv.
    by rewrite bool_decide_eq_true_2 by done. }
  split; [exact Hone|]. split; [|split].
  - induction n as [|n IH]; [done|]. rewrite Nat.iter_succ, IH, Hone. done.
  - unfold PartyInvitationViewSet.accept. view_unfold. rewrite Hinv.
    by rewrite bool_decide_eq_false_2 by tauto.
  - intros pk' _ Hnone. unfold PartyInvitationViewSet.accept. view_unfold.
    by rewrite Hnone.
Qed.

Lemma accept_wrong_actor_no_effect_witness :
  dispatch (PartyInvitationViewSet.accept "u3" 1) sample_store
  = (mkResponse HTTP_204_NO_CONTENT NoData, sample_store)
  ∧ Nat.iter 3 (λ s, (dispatch (PartyInvitationViewSet.accept "u3" 1) s).2) sample_store
    = sample_store
  ∧ dispatch (PartyInvitationViewSet.accept "u3" 5) sample_store
    = (mkResponse HTTP_404_NOT_FOUND NoData, sample_store).
Proof.
  destruct (accept_wrong_actor_no_effect sample_store "u3" 1 invitation_1)
    as (H1 & H2 & _ & H4); [reflexivity|discriminate|].
  split; [exact H1|]. split; [apply H2|].
  apply (H4 5); reflexivity.
Defined.

(** ** Invitation lifecycle: delete *)

(** C9: deleting an invitation is authorized against the party named in
    the request.  It succeeds whenever the actor owns that party or is the
    invitation's receiver, and is forbidden otherwise; nothing relates the
    party of the request to the party of the invitation. *)
Theorem invitation_destroy_checks_request_party (st : Store)
    (user party_public_id : string) (pk : nat) (i : PartyInvitation.t) (p : Party.t) :
  find_invitation pk st = Some i →
  find_party party_public_id st = Some p →
  (user = Party.owner p ∨ user = PartyInvitation.receiver i →
     dispatch (PartyInvitationViewSet.destroy user party_public_id pk) st
     = (mkResponse HTTP_204_NO_CONTENT NoData,
        mkStore (users st) (parties st)
          (List.filter (λ j, negb (bool_decide (PartyInvitation.pk j = pk)))
             (invitations st))
          (next_pk st)))
  ∧ (user ≠ Party.owner p → user ≠ PartyInvitation.receiver i →
     dispatch (PartyInvitationViewSet.destroy user party_public_id pk) st
     = (mkResponse HTTP_403_FORBIDDEN NoData, st)).
Proof.
  intros Hinv Hparty. pose proof (find_invitation_pk _ _ _ Hinv) as Hpk.
  split.
  - intros Hmay. unfold PartyInvitationViewSet.destroy. view_unfold.
    rewrite Hinv, Hparty.
    rewrite bool_decide_eq_false_2 by (rewrite elem_of_pair; tauto).
    cbn. by rewrite Hpk.
  - intros Hown Hrecv. unfold PartyInvitationViewSet.destroy. view_unfold.
    rewrite Hinv, Hparty.
    rewrite bool_decide_eq_true_2 by (rewrite elem_of_pair; tauto). done.
Qed.

Lemma invitation_destroy_checks_request_party_witness :
  PartyInvitation.party invitation_1 ≠ "Q"
  ∧ dispatch (PartyInvitationViewSet.destroy "u3" "Q" 1) sample_store
    = (mkResponse HTTP_204_NO_CONTENT NoData,
       mkStore (users sample_store) (parties sample_store) [] 2).
Proof.
  split; [discriminate|].
  destruct (invitation_destroy_checks_request_party sample_store "u3" "Q" 1
              invitation_1 party_Q eq_refl eq_refl) as [H _].
  apply H. left. reflexivity.
Defined.

(** C6: the invitation with [pk = 1] targets party [P], owned by [u1],
    and is addressed to [u2].  [u3] is neither, but owns party [Q]; the
    delete request of [u3] that names [Q] is not forbidden: it is answered
    204 and the invitation is removed. *)
Theorem invitation_destroy_by_foreign_owner :
  find_invitation 1 sample_store = Some invitation_1
  ∧ find_party (PartyInvitation.party invitation_1) sample_store = Some party_P
  ∧ "u3" ≠ Party.owner party_P
  ∧ "u3" ≠ PartyInvitation.receiver invitation_1
  ∧ dispatch (PartyInvitationViewSet.destroy "u3" "Q" 1) sample_store
    = (mkResponse HTTP_204_NO_CONTENT NoData,
       mkStore (users sample_store) (parties sample_store) [] 2)
  ∧ dispatch (PartyInvitationViewSet.destroy "u3" "P" 1) sample_store
    = (mkResponse HTTP_403_FORBIDDEN NoData, sample_store).
Proof.
  split; [reflexivity|]. split; [reflexivity|].
  split; [discriminate|]. split; [discriminate|].
  split; vm_compute; reflexivity.
Qed.

(** ** Invitation lifecycle: create and list *)

(** C7: creating an invitation on a party is forbidden, and stores
    nothing, for every actor who is not the party's owner, whatever the
    payload; for the owner, a payload that names a stored user as receiver
    persists a new invitation for that receiver on that party.  A created
    answer is only ever given to the owner. *)
Theorem invitation_create_iff_owner (st : Store) (user party_public_id : string)
    (payload : gmap string string) (p : Party.t) :
  find_party party_public_id st = Some p →
  (user ≠ Party.owner p →
     dispatch (PartyInvitationViewSet.create user party_public_id payload) st
     = (mkResponse HTTP_403_FORBIDDEN NoData, st))
  ∧ (∀ r, payload !! "receiver_public_id" = Some r → r ∈ users st →
          user = Party.owner p →
          dispatch (PartyInvitationViewSet.create user party_public_id payload) st
          = (mkResponse HTTP_201_CREATED NoData,
             mkStore (users st) (parties st)
               (invitations st ++ [PartyInvitation.mk (next_pk st) party_public_id r])
               (S (next_pk st))))
  ∧ (status_code
       (dispatch (PartyInvitationViewSet.create user party_public_id payload) st).1
     = HTTP_201_CREATED → user = Party.owner p).
Proof.
  intros Hparty. pose proof (find_party_public_id _ _ _ Hparty) as Hid.
  split; [|split].
  - intros Hne. unfold PartyInvitationViewSet.create. view_unfold.
    rewrite Hparty. by rewrite bool_decide_eq_true_2 by done.
  - intros r Hr Hin Hown.
    unfold PartyInvitationViewSet.create, PartyInvitationSerializer.is_valid,
      PartyInvitationSerializer.create.
    view_unfold. rewrite Hparty.
    rewrite bool_decide_eq_false_2 by tauto.
    rewrite lookup_insert_eq, lookup_insert_ne, Hr by done.
    rewrite Hid, Hparty.
    rewrite (bool_decide_eq_true_2 (is_Some (Some p))) by eauto.
    rewrite (bool_decide_eq_true_2 (r ∈ users st)) by done.
    done.
  - unfold PartyInvitationViewSet.create. view_unfold. rewrite Hparty.
    case_bool_decide as Hown; [cbn; discriminate|]. done.
Qed.

Lemma invitation_create_iff_owner_witness :
  dispatch (PartyInvitationViewSet.create "u2" "P" {["receiver_public_id" := "u3"]})
    sample_store
  = (mkResponse HTTP_403_FORBIDDEN NoData, sample_store)
  ∧ dispatch (PartyInvitationViewSet.create "u1" "P" {["receiver_public_id" := "u3"]})
      sample_store
    = (mkResponse HTTP_201_CREATED NoData,
       mkStore (users sample_store) (parties sample_store)
         [invitation_1; PartyInvitation.mk 2 "P" "u3"] 3).
Proof.
  split.
  - destruct (invitation_create_iff_owner sample_store "u2" "P"
                {["receiver_public_id" := "u3"]} party_P eq_refl) as (H & _).
    apply H. discriminate.
  - destruct (invitation_create_iff_owner sample_store "u1" "P"
                {["receiver_public_id" := "u3"]} party_P eq_refl) as (_ & H & _).
    apply (H "u3").
    + vm_compute. reflexivity.
    + apply (bool_decide_unpack _). vm_compute. exact I.
    + reflexivity.
Defined.

(** C10: every invitation that [create] stores targets the party of the
    request path, which is the party whose owner the requester was checked
    to be; a [party_public_id] carried by the payload has no influence. *)
Theorem created_invitation_targets_path_party (st st' : Store)
    (user party_public_id : string) (payload : gmap string string) (r : Response) :
  dispatch (PartyInvitationViewSet.create user party_public_id payload) st = (r, st') →
  status_code r = HTTP_201_CREATED →
  ∃ p receiver,
    find_party party_public_id st = Some p
    ∧ user = Party.owner p
    ∧ Party.public_id p = party_public_id
    ∧ invitations st'
      = (invitations st
           ++ [PartyInvitation.mk (next_pk st) party_public_id receiver])%list
    ∧ dispatch
        (PartyInvitationViewSet.create user party_public_id
           (delete "party_public_id" payload)) st
      = (r, st').
Proof.
  unfold PartyInvitationViewSet.create, PartyInvitationSerializer.is_valid,
    PartyInvitationSerializer.create.
  view_unfold.
  destruct (find_party party_public_id st) as [p|] eqn:Hparty;
    [|intros [= <- <-]; done].
  pose proof (find_party_public_id _ _ _ Hparty) as Hid.
  case_bool_decide as Hown; [intros [= <- <-]; done|].
  cbn. rewrite insert_delete_eq.
  rewrite lookup_insert_eq, lookup_insert_ne by done.
  destruct (payload !! "receiver_public_id") as [receiver|];
    [|intros [= <- <-]; done].
  destruct (bool_decide (is_Some (find_party (Party.public_id p) st))
            && bool_decide (receiver ∈ users st)); intros [= <- <-]; [|done].
  intros _. exists p, receiver. cbn. rewrite Hid. done.
Qed.

Lemma created_invitation_targets_path_party_witness :
  ∃ receiver,
    invitations
      (dispatch
         (PartyInvitationViewSet.create "u1" "P"
            {["party_public_id" := "Q"; "receiver_public_id" := "u3"]})
         sample_store).2
    = [invitation_1; PartyInvitation.mk 2 "P" receiver].
Proof.
  destruct (created_invitation_targets_path_party sample_store
              (dispatch
                 (PartyInvitationViewSet.create "u1" "P"
                    {["party_public_id" := "Q"; "receiver_public_id" := "u3"]})
                 sample_store).2
              "u1" "P" {["party_public_id" := "Q"; "receiver_public_id" := "u3"]}
              (mkResponse HTTP_201_CREATED NoData))
    as (p & receiver & _ & _ & _ & H & _).
  - vm_compute. reflexivity.
  - reflexivity.
  - exists receiver. exact H.
Defined.

(** C8: the invitations of a party are listed for its owner, who gets
    exactly the pending invitations on that party, and the request is
    forbidden for every other actor; the unscoped listing gives any actor
    exactly the invitations addressed to them, without an ownership
    check. *)
Theorem invitation_lists (st : Store) (user party_public_id : string) (p : Party.t) :
  find_party party_public_id st = Some p →
  (user = Party.owner p →
     dispatch (PartyInvitationViewSet.list user party_public_id) st
     = (mkResponse HTTP_200_OK
          (InvitationListData
             (List.filter
                (λ i, bool_decide (PartyInvitation.party i = party_public_id))
                (invitations st))),
        st))
  ∧ (user ≠ Party.owner p →
     dispatch (PartyInvitationViewSet.list user party_public_id) st
     = (mkResponse HTTP_403_FORBIDDEN NoData, st))
  ∧ (∀ actor,
       dispatch (PartyInvitationViewSet.list_mine actor) st
       = (mkResponse HTTP_200_OK
            (InvitationListData
               (List.filter (λ i, bool_decide (PartyInvitation.receiver i = actor))
                  (invitations st))),
          st)).
Proof.
  intros Hparty. pose proof (find_party_public_id _ _ _ Hparty) as Hid.
  split; [|split].
  - intros Hown. unfold PartyInvitationViewSet.list. view_unfold.
    rewrite Hparty. rewrite bool_decide_eq_false_2 by tauto. by rewrite Hid.
  - intros Hne. unfold PartyInvitationViewSet.list. view_unfold.
    rewrite Hparty. by rewrite bool_decide_eq_true_2 by done.
  - intros actor. unfold PartyInvitationViewSet.list_mine. view_unfold. done.
Qed.

Lemma invitation_lists_witness :
  dispatch (PartyInvitationViewSet.list "u1" "P") sample_store
  = (mkResponse HTTP_200_OK (InvitationListData [invitation_1]), sample_store)
  ∧ dispatch (PartyInvitationViewSet.list "u4" "P") sample_store
    = (mkResponse HTTP_403_FORBIDDEN NoData, sample_store)
  ∧ dispatch (PartyInvitationViewSet.list_mine "u2") sample_store
    = (mkResponse HTTP_200_OK (InvitationListData [invitation_1]), sample_store).
Proof.
  split; [|split].
  - destruct (invitation_lists sample_store "u1" "P" party_P eq_refl) as (H & _).
    apply H. reflexivity.
  - destruct (invitation_lists sample_store "u4" "P" party_P eq_refl) as (_ & H & _).
    apply H. discriminate.
  - destruct (invitation_lists sample_store "u2" "P" party_P eq_refl) as (_ & _ & H).
    apply (H "u2").
Defined.

(** ** Further properties of the party views *)

(** Splits a view applied to a store into the cases its lookups and tests
    distinguish. *)
Ltac view_cases :=
  unfold PartyViewSet.create, PartyViewSet.retrieve, PartyViewSet.list,
    PartyViewSet.list_mine, PartyViewSet.update, PartyViewSet.partial_update,
    PartyViewSet.destroy, PartyInvitationViewSet.create,
    PartyInvitationViewSet.accept, PartyInvitationViewSet.list,
    PartyInvitationViewSet.list_mine, PartyInvitationViewSet.destroy,
    PartySerializer.is_valid, PartySerializer.create, PartySerializer.update,
    PartyInvitationSerializer.is_valid, PartyInvitationSerializer.create;
  view_unfold;
  repeat (case_match; cbn beta iota in *); simplify_eq; cbn.

(** X1: a party view on a [public_id] that names no party answers not
    found and leaves the store as it was, whoever asks and whatever the
    payload is. *)
Theorem party_views_not_found (field_ok : string → string → bool)
    (required : list string) (st : Store) (user public_id : string)
    (payload : gmap string string) :
  find_party public_id st = None →
  dispatch (PartyViewSet.retrieve user public_id) st
  = (mkResponse HTTP_404_NOT_FOUND NoData, st)
  ∧ dispatch (PartyViewSet.update field_ok required user public_id payload) st
    = (mkResponse HTTP_404_NOT_FOUND NoData, st)
  ∧ dispatch (PartyViewSet.partial_update field_ok required user public_id payload) st
    = (mkResponse HTTP_404_NOT_FOUND NoData, st)
  ∧ dispatch (PartyViewSet.destroy user public_id) st
    = (mkResponse HTTP_404_NOT_FOUND NoData, st).
Proof.
  intros Hnone.
  unfold PartyViewSet.retrieve, PartyViewSet.update, PartyViewSet.partial_update,
    PartyViewSet.destroy.
  view_unfold. rewrite Hnone. done.
Qed.

Lemma party_views_not_found_witness :
  dispatch (PartyViewSet.retrieve "u1" "R") sample_store
  = (mkResponse HTTP_404_NOT_FOUND NoData, sample_store)
  ∧ dispatch (PartyViewSet.destroy "u1" "R") sample_store
    = (mkResponse HTTP_404_NOT_FOUND NoData, sample_store).
Proof.
  destruct (party_views_not_found any_field [] sample_store "u1" "R" ∅ eq_refl)
    as (H1 & _ & _ & H4).
  split; [exact H1|exact H4].
Defined.

(** X2: only the owner may update a party.  For everyone else, the
    participants included, both the full and the partial update answer
    forbidden and leave the store as it was, whatever the payload is: the
    payload is not even validated. *)
Theorem party_update_forbidden_for_non_owner (field_ok : string → string → bool)
    (required : list string) (st : Store) (user public_id : string)
    (payload : gmap string string) (p : Party.t) :
  find_party public_id st = Some p →
  Party.owner p ≠ user →
  dispatch (PartyViewSet.update field_ok required user public_id payload) st
  = (mkResponse HTTP_403_FORBIDDEN NoData, st)
  ∧ dispatch (PartyViewSet.partial_update field_ok required user public_id payload) st
    = (mkResponse HTTP_403_FORBIDDEN NoData, st).
Proof.
  intros Hfind Hown.
  unfold PartyViewSet.update, PartyViewSet.partial_update.
  view_unfold. rewrite Hfind.
  rewrite bool_decide_eq_true_2 by done. done.
Qed.

Lemma party_update_forbidden_for_non_owner_witness :
  dispatch (PartyViewSet.update any_field [] "u4" "P" {["owner_public_id" := "u4"]})
    sample_store
  = (mkResponse HTTP_403_FORBIDDEN NoData, sample_store)
  ∧ dispatch
      (PartyViewSet.partial_update any_field [] "u4" "P" {["owner_public_id" := "u4"]})
      sample_store
    = (mkResponse HTTP_403_FORBIDDEN NoData, sample_store).
Proof.
  apply (party_update_forbidden_for_non_owner any_field [] sample_store "u4" "P"
           {["owner_public_id" := "u4"]} party_P).
  - reflexivity.
  - discriminate.
Defined.

(** X3: the reading views never write.  Retrieving a party, listing the
    visible or the owned parties, and listing the invitations of a party
    or of an actor leave the store as it was, whatever they answer. *)
Theorem reading_views_keep_store (st : Store) (user public_id : string) :
  (dispatch (PartyViewSet.retrieve user public_id) st).2 = st
  ∧ (dispatch (PartyViewSet.list user) st).2 = st
  ∧ (dispatch (PartyViewSet.list_mine user) st).2 = st
  ∧ (dispatch (PartyInvitationViewSet.list user public_id) st).2 = st
  ∧ (dispatch (PartyInvitationViewSet.list_mine user) st).2 = st.
Proof.
  repeat split; view_cases; done.
Qed.

(** X4: what creating a party can do to the store.  Whenever the answer
    is 201, exactly one party has been appended: it carries the fresh
    identifier, is owned by the requester and has no participants, and
    it is the party of the answer; users and invitations are untouched.
    Whenever the answer is anything else, the store is as it was.  An
    owner named in the payload has no influence on the outcome. *)
Theorem party_create_outcomes (field_ok : string → string → bool)
    (required : list string) (st : Store) (user fresh : string)
    (payload : gmap string string) :
  (status_code (dispatch (PartyViewSet.create field_ok required user fresh payload) st).1
   = HTTP_201_CREATED →
   ∃ a,
     dispatch (PartyViewSet.create field_ok required user fresh payload) st
     = (mkResponse HTTP_201_CREATED (PartyData (Party.mk fresh user ∅ a)),
        mkStore (users st) (parties st ++ [Party.mk fresh user ∅ a])
          (invitations st) (next_pk st)))
  ∧ (status_code
       (dispatch (PartyViewSet.create field_ok required user fresh payload) st).1
     ≠ HTTP_201_CREATED →
     (dispatch (PartyViewSet.create field_ok required user fresh payload) st).2 = st)
  ∧ ∀ other,
      dispatch
        (PartyViewSet.create field_ok required user fresh
           (<["owner_public_id" := other]> payload)) st
      = dispatch (PartyViewSet.create field_ok required user fresh payload) st.
Proof.
  split; [|split].
  - unfold PartyViewSet.create, PartySerializer.is_valid, PartySerializer.create.
    view_unfold. rewrite lookup_insert_eq.
    repeat (match goal with |- context [if ?b then _ else _] => destruct b end;
            cbn beta iota); cbn; try discriminate.
    intros _. eauto.
  - unfold PartyViewSet.create, PartySerializer.is_valid, PartySerializer.create.
    view_unfold. rewrite lookup_insert_eq.
    repeat (match goal with |- context [if ?b then _ else _] => destruct b end;
            cbn beta iota); cbn; try done.
  - intros other. unfold PartyViewSet.create. cbn zeta.
    by rewrite insert_insert_eq.
Qed.

Lemma party_create_outcomes_witness :
  ∃ a,
    dispatch (PartyViewSet.create any_field [] "u2" "R" {["owner_public_id" := "u1"]})
      sample_store
    = (mkResponse HTTP_201_CREATED (PartyData (Party.mk "R" "u2" ∅ a)),
       mkStore (users sample_store) (parties sample_store ++ [Party.mk "R" "u2" ∅ a])
         (invitations sample_store) (next_pk sample_store)).
Proof.
  destruct (party_create_outcomes any_field [] sample_store "u2" "R"
              {["owner_public_id" := "u1"]}) as (H & _ & _).
  apply H. vm_compute. reflexivity.
Defined.

(** X5: a full update by the owner has two outcomes.  Either the payload
    is rejected and the store stays as it was, or the answer is 200 and
    the party is still found under its identifier with the requester as
    owner, the invitations being untouched.  An owner named in the
    payload has no influence on either. *)
Theorem party_update_outcomes (field_ok : string → string → bool)
    (required : list string) (st : Store) (user public_id : string)
    (payload : gmap string string) (p : Party.t) :
  find_party public_id st = Some p →
  Party.owner p = user →
  (dispatch (PartyViewSet.update field_ok required user public_id payload) st
   = (mkResponse HTTP_400_BAD_REQUEST NoData, st)
   ∨ ∃ p' st',
       dispatch (PartyViewSet.update field_ok required user public_id payload) st
       = (mkResponse HTTP_200_OK (PartyData p'), st')
       ∧ find_party public_id st' = Some p'
       ∧ Party.owner p' = user
       ∧ Party.public_id p' = public_id
       ∧ invitations st' = invitations st
       ∧ users st' = users st)
  ∧ ∀ other,
      dispatch
        (PartyViewSet.update field_ok required user public_id
           (<["owner_public_id" := other]> payload)) st
      = dispatch (PartyViewSet.update field_ok required user public_id payload) st.
Proof.
  intros Hfind Hown. pose proof (find_party_public_id _ _ _ Hfind) as Hid.
  split.
  - unfold PartyViewSet.update, PartySerializer.is_valid, PartySerializer.update.
    view_unfold. rewrite Hfind.
    rewrite bool_decide_eq_false_2 by tauto.
    cbn. rewrite Hfind, lookup_insert_eq.
    repeat (match goal with |- context [if ?b then _ else _] => destruct b end;
            cbn beta iota); eauto.
    right. eexists _, _. split; [reflexivity|].
    split; [|done].
    unfold find_party in *. cbn. rewrite Hid.
    rewrite find_on_party by (cbn; done).
    rewrite bool_decide_eq_true_2 by done. rewrite Hfind. done.
  - intros other. unfold PartyViewSet.update. view_unfold. rewrite Hfind.
    rewrite bool_decide_eq_false_2 by tauto. cbn zeta.
    by rewrite insert_insert_eq.
Qed.

Lemma party_update_outcomes_witness :
  dispatch (PartyViewSet.update any_field [] "u1" "P" {["owner_public_id" := "u2"]})
    sample_store
  = dispatch (PartyViewSet.update any_field [] "u1" "P" ∅) sample_store.
Proof.
  destruct (party_update_outcomes any_field [] sample_store "u1" "P" ∅ party_P
              eq_refl eq_refl) as [_ H].
  apply (H "u2").
Defined.

(** X6: leaving is final.  Once a participant who is not the owner has
    removed themselves from a party, the same request again is forbidden
    and changes nothing. *)
Theorem party_leave_twice_forbidden (st : Store) (user public_id : string)
    (p : Party.t) :
  find_party public_id st = Some p →
  Party.owner p ≠ user →
  user ∈ Party.participants p →
  dispatch (PartyViewSet.destroy user public_id)
    (dispatch (PartyViewSet.destroy user public_id) st).2
  = (mkResponse HTTP_403_FORBIDDEN NoData,
     (dispatch (PartyViewSet.destroy user public_id) st).2).
Proof.
  intros Hfind Hown Hin. pose proof (find_party_public_id _ _ _ Hfind) as Hid.
  assert (Hfirst : ∃ st',
    dispatch (PartyViewSet.destroy user public_id) st
    = (mkResponse HTTP_204_NO_CONTENT NoData, st')
    ∧ find_party public_id st'
      = Some (Party.mk public_id (Party.owner p)
                (Party.participants p ∖ {[user]}) (Party.attrs p))).
  { eexists. split.
    - unfold PartyViewSet.destroy. view_unfold. rewrite Hfind.
      rewrite (bool_decide_eq_true_2 (Party.owner p ≠ user)) by done.
      rewrite (bool_decide_eq_false_2 (user ∉ Party.participants p)) by tauto.
      cbn. reflexivity.
    - unfold find_party in *. cbn. rewrite Hid.
      rewrite !find_on_party by (cbn; done).
      rewrite bool_decide_eq_true_2 by done. rewrite Hfind. done. }
  destruct Hfirst as (st' & -> & Hfind'). cbn.
  unfold PartyViewSet.destroy. view_unfold. rewrite Hfind'. cbn.
  rewrite (bool_decide_eq_true_2 (Party.owner p ≠ user)) by done.
  rewrite bool_decide_eq_true_2
    by (intros [_ Hn]%elem_of_difference; by apply Hn, elem_of_singleton).
  done.
Qed.

Lemma party_leave_twice_forbidden_witness :
  dispatch (PartyViewSet.destroy "u4" "P")
    (dispatch (PartyViewSet.destroy "u4" "P") sample_store).2
  = (mkResponse HTTP_403_FORBIDDEN NoData,
     (dispatch (PartyViewSet.destroy "u4" "P") sample_store).2).
Proof.
  apply (party_leave_twice_forbidden sample_store "u4" "P" party_P).
  - reflexivity.
  - discriminate.
  - apply (bool_decide_unpack _). vm_compute. exact I.
Defined.

(** X7: deleting is final.  Once the owner has deleted a party, every
    party view and every invitation view that names it answers not found,
    whoever asks. *)
Theorem party_delete_then_not_found (field_ok : string → string → bool)
    (required : list string) (st : Store) (owner public_id : string) (p : Party.t) :
  find_party public_id st = Some p →
  Party.owner p = owner →
  ∀ user payload,
    let st' := (dispatch (PartyViewSet.destroy owner public_id) st).2 in
    find_party public_id st' = None
    ∧ dispatch (PartyViewSet.retrieve user public_id) st'
      = (mkResponse HTTP_404_NOT_FOUND NoData, st')
    ∧ dispatch (PartyViewSet.update field_ok required user public_id payload) st'
      = (mkResponse HTTP_404_NOT_FOUND NoData, st')
    ∧ dispatch (PartyViewSet.partial_update field_ok required user public_id payload) st'
      = (mkResponse HTTP_404_NOT_FOUND NoData, st')
    ∧ dispatch (PartyViewSet.destroy user public_id) st'
      = (mkResponse HTTP_404_NOT_FOUND NoData, st')
    ∧ dispatch (PartyInvitationViewSet.create user public_id payload) st'
      = (mkResponse HTTP_404_NOT_FOUND NoData, st')
    ∧ dispatch (PartyInvitationViewSet.list user public_id) st'
      = (mkResponse HTTP_404_NOT_FOUND NoData, st').
Proof.
  intros Hfind Hown user payload st'.
  pose proof (find_party_public_id _ _ _ Hfind) as Hid.
  assert (Hgone : find_party public_id st' = None).
  { subst st'. unfold PartyViewSet.destroy. view_unfold. rewrite Hfind.
    rewrite (bool_decide_eq_false_2 (Party.owner p ≠ owner)) by tauto.
    cbn. unfold find_party. cbn. rewrite Hid.
    apply (find_filter_negb (λ q, bool_decide (Party.public_id q = public_id))). }
  clearbody st'. split; [exact Hgone|].
  unfold PartyViewSet.retrieve, PartyViewSet.update, PartyViewSet.partial_update,
    PartyViewSet.destroy, PartyInvitationViewSet.create, PartyInvitationViewSet.list.
  view_unfold. rewrite Hgone. done.
Qed.

Lemma party_delete_then_not_found_witness :
  dispatch (PartyViewSet.retrieve "u4" "P")
    (dispatch (PartyViewSet.destroy "u1" "P") sample_store).2
  = (mkResponse HTTP_404_NOT_FOUND NoData,
     (dispatch (PartyViewSet.destroy "u1" "P") sample_store).2).
Proof.
  destruct (party_delete_then_not_found any_field [] sample_store "u1" "P" party_P
              eq_refl eq_refl "u4" ∅) as (_ & H & _).
  exact H.
Defined.

(** ** Further properties of the invitation views *)

(** X8: when the party of the request path does not exist, creating,
    listing and deleting invitations all answer not found and change
    nothing, whoever asks; for the delete, under a key of the key
    column's range, this holds even when the invitation exists and the
    requester is its receiver. *)
Theorem invitation_views_unknown_party (st : Store) (user party_public_id : string)
    (pk : nat) (payload : gmap string string) :
  find_party party_public_id st = None →
  dispatch (PartyInvitationViewSet.create user party_public_id payload) st
  = (mkResponse HTTP_404_NOT_FOUND NoData, st)
  ∧ dispatch (PartyInvitationViewSet.list user party_public_id) st
    = (mkResponse HTTP_404_NOT_FOUND NoData, st)
  ∧ (pk_in_range pk →
     dispatch (PartyInvitationViewSet.destroy user party_public_id pk) st
     = (mkResponse HTTP_404_NOT_FOUND NoData, st)).
Proof.
  intros Hnone.
  unfold PartyInvitationViewSet.create, PartyInvitationViewSet.list,
    PartyInvitationViewSet.destroy.
  view_unfold. rewrite Hnone.
  destruct (find_invitation pk st); cbn; rewrite ?Hnone; done.
Qed.

Lemma invitation_views_unknown_party_witness :
  dispatch (PartyInvitationViewSet.destroy "u2" "R" 1) sample_store
  = (mkResponse HTTP_404_NOT_FOUND NoData, sample_store).
Proof.
  destruct (invitation_views_unknown_party sample_store "u2" "R" 1 ∅ eq_refl)
    as (_ & _ & H).
  apply H. reflexivity.
Defined.

(** X9: accepting or deleting under a key of the key column's range that
    names no invitation answers not found and changes nothing, whoever
    asks and whichever party the request names. *)
Theorem invitation_views_unknown_pk (st : Store) (user party_public_id : string)
    (pk : nat) :
  pk_in_range pk →
  find_invitation pk st = None →
  dispatch (PartyInvitationViewSet.accept user pk) st
  = (mkResponse HTTP_404_NOT_FOUND NoData, st)
  ∧ dispatch (PartyInvitationViewSet.destroy user party_public_id pk) st
    = (mkResponse HTTP_404_NOT_FOUND NoData, st).
Proof.
  intros _ Hnone.
  unfold PartyInvitationViewSet.accept, PartyInvitationViewSet.destroy.
  view_unfold. rewrite Hnone. done.
Qed.

Lemma invitation_views_unknown_pk_witness :
  dispatch (PartyInvitationViewSet.accept "u2" 7) sample_store
  = (mkResponse HTTP_404_NOT_FOUND NoData, sample_store)
  ∧ dispatch (PartyInvitationViewSet.destroy "u1" "P" 7) sample_store
    = (mkResponse HTTP_404_NOT_FOUND NoData, sample_store).
Proof.
  split.
  - apply (invitation_views_unknown_pk sample_store "u2" "P" 7); reflexivity.
  - apply (invitation_views_unknown_pk sample_store "u1" "P" 7); reflexivity.
Defined.

(** X10: creating and deleting invitations never touch the parties or the
    users, whatever they answer.  Creating leaves the invitations as they
    were or appends one, keyed with the store's next key and targeting the
    party of the request path; deleting leaves them as they were or
    removes the one with the given key, and no other. *)
Theorem invitation_writes_keep_parties (st : Store) (user party_public_id : string)
    (pk : nat) (payload : gmap string string) :
  (let st' := (dispatch (PartyInvitationViewSet.create user party_public_id payload)
                 st).2 in
   parties st' = parties st
   ∧ users st' = users st
   ∧ (st' = st
      ∨ ∃ receiver,
          invitations st'
          = (invitations st
               ++ [PartyInvitation.mk (next_pk st) party_public_id receiver])%list
          ∧ next_pk st' = S (next_pk st)))
  ∧ (let st' := (dispatch (PartyInvitationViewSet.destroy user party_public_id pk)
                   st).2 in
     parties st' = parties st
     ∧ users st' = users st
     ∧ next_pk st' = next_pk st
     ∧ (st' = st
        ∨ invitations st'
          = List.filter (λ j, negb (bool_decide (PartyInvitation.pk j = pk)))
              (invitations st))).
Proof.
  split; cbn zeta.
  - unfold PartyInvitationViewSet.create, PartyInvitationSerializer.is_valid,
      PartyInvitationSerializer.create.
    view_unfold.
    destruct (find_party party_public_id st) as [p|] eqn:Hparty; [|by eauto].
    pose proof (find_party_public_id _ _ _ Hparty) as Hid.
    destruct (bool_decide (user ≠ Party.owner p)); [by eauto|].
    cbn. rewrite lookup_insert_eq, lookup_insert_ne by done.
    destruct (payload !! "receiver_public_id") as [receiver|]; [|by eauto].
    destruct (bool_decide (is_Some (find_party (Party.public_id p) st))
              && bool_decide (receiver ∈ users st)); [|by eauto].
    cbn. rewrite Hid. eauto 10.
  - unfold PartyInvitationViewSet.destroy. view_unfold.
    destruct (find_invitation pk st) as [i|] eqn:Hinv; [|by eauto].
    pose proof (find_invitation_pk _ _ _ Hinv) as Hpk.
    cbn. destruct (find_party party_public_id st) as [p|]; [|by eauto].
    cbn. destruct (bool_decide (user ∉ [Party.owner p; PartyInvitation.receiver i]));
      [by eauto|].
    cbn. rewrite Hpk. eauto 10.
Qed.

(** X11: a deleted invitation is gone.  After a delete that answered 204,
    accepting and deleting under the same key answer not found, whoever
    asks and whichever party the request names. *)
Theorem invitation_destroy_then_not_found (st : Store)
    (user party_public_id : string) (pk : nat) :
  status_code (dispatch (PartyInvitationViewSet.destroy user party_public_id pk) st).1
  = HTTP_204_NO_CONTENT →
  ∀ user' party_public_id',
    let st' := (dispatch (PartyInvitationViewSet.destroy user party_public_id pk) st).2 in
    find_invitation pk st' = None
    ∧ dispatch (PartyInvitationViewSet.accept user' pk) st'
      = (mkResponse HTTP_404_NOT_FOUND NoData, st')
    ∧ dispatch (PartyInvitationViewSet.destroy user' party_public_id' pk) st'
      = (mkResponse HTTP_404_NOT_FOUND NoData, st').
Proof.
  intros Hok user' party_public_id' st'.
  assert (Hgone : find_invitation pk st' = None).
  { subst st'. revert Hok. unfold PartyInvitationViewSet.destroy. view_unfold.
    destruct (find_invitation pk st) as [i|] eqn:Hinv; [|cbn; discriminate].
    pose proof (find_invitation_pk _ _ _ Hinv) as Hpk.
    cbn. destruct (find_party party_public_id st) as [p|]; [|cbn; discriminate].
    cbn. destruct (bool_decide (user ∉ [Party.owner p; PartyInvitation.receiver i]));
      [cbn; discriminate|].
    cbn. intros _. unfold find_invitation. cbn. rewrite Hpk.
    apply (find_filter_negb (λ j, bool_decide (PartyInvitation.pk j = pk))). }
  clearbody st'. split; [exact Hgone|].
  unfold PartyInvitationViewSet.accept, PartyInvitationViewSet.destroy.
  view_unfold. rewrite Hgone. done.
Qed.

Lemma invitation_destroy_then_not_found_witness :
  dispatch (PartyInvitationViewSet.accept "u2" 1)
    (dispatch (PartyInvitationViewSet.destroy "u1" "P" 1) sample_store).2
  = (mkResponse HTTP_404_NOT_FOUND NoData,
     (dispatch (PartyInvitationViewSet.destroy "u1" "P" 1) sample_store).2).
Proof.
  destruct (invitation_destroy_then_not_found sample_store "u1" "P" 1)
    with (user' := "u2") (party_public_id' := "P") as (_ & H & _).
  - vm_compute. reflexivity.
  - exact H.
Defined.

(** ** The store-assigned keys stay well formed *)

Section Preservation.
Context (P : Store → Prop).

Lemma preserves_ret {A} (a : A) : preserves P (mret a).
Proof. intros st H. exact H. Qed.

Lemma preserves_raise {A} (e : APIException) : preserves P (raise e : View A).
Proof. intros st H. exact H. Qed.

Lemma preserves_get_store : preserves P get_store.
Proof. intros st H. exact H. Qed.

Lemma preserves_bind {A B} (m : View A) (k : A → View B) :
  preserves P m → (∀ a, preserves P (k a)) → preserves P (mbind k m).
Proof.
  intros Hm Hk st H. unfold mbind, View_bind.
  specialize (Hm st H). destruct (m st) as [[a|e] st']; cbn in *.
  - by apply Hk.
  - exact Hm.
Qed.

Lemma preserves_get_party_or_404 public_id : preserves P (get_party_or_404 public_id).
Proof. intros st H. unfold get_party_or_404. by destruct (find_party public_id st). Qed.

Lemma preserves_get_invitation_or_404 pk : preserves P (get_invitation_or_404 pk).
Proof.
  intros st H. unfold get_invitation_or_404. by destruct (find_invitation pk st).
Qed.

Lemma preserves_dispatch (v : View Response) (st : Store) :
  preserves P v → P st → P (dispatch v st).2.
Proof.
  intros Hv H. specialize (Hv st H). unfold dispatch.
  destruct (v st) as [[r|[|]] st']; exact Hv.
Qed.
End Preservation.

Lemma pks_wf_filter (g : PartyInvitation.t → bool) (st st' : Store) :
  invitations st' = List.filter g (invitations st) →
  next_pk st' = next_pk st →
  invitation_pks_wf st → invitation_pks_wf st'.
Proof.
  unfold invitation_pks_wf. intros -> -> [Hlt Hnd].
  induction (invitations st) as [|i l IH]; [done|].
  apply Forall_cons in Hlt as [Hi Hlt]. rewrite fmap_cons in Hnd.
  apply NoDup_cons in Hnd as [Hnotin Hnd].
  destruct (IH Hlt Hnd) as [IH1 IH2]. cbn.
  destruct (g i); [|done]. split.
  - by apply Forall_cons.
  - rewrite fmap_cons. apply NoDup_cons. split; [|done].
    intros (j & Hj & Hin)%list_elem_of_fmap. apply Hnotin.
    apply list_elem_of_fmap. exists j. split; [done|].
    apply list_elem_of_In. apply list_elem_of_In, List.filter_In in Hin. tauto.
Qed.

Lemma pks_wf_same (st st' : Store) :
  invitations st' = invitations st →
  next_pk st' = next_pk st →
  invitation_pks_wf st → invitation_pks_wf st'.
Proof. unfold invitation_pks_wf. by intros -> ->. Qed.

Lemma pks_wf_append (i : PartyInvitation.t) (st st' : Store) :
  invitations st' = (invitations st ++ [i])%list →
  PartyInvitation.pk i = next_pk st →
  next_pk st' = S (next_pk st) →
  invitation_pks_wf st → invitation_pks_wf st'.
Proof.
  unfold invitation_pks_wf. intros -> Hpk -> [Hlt Hnd]. split.
  - apply Forall_app. split.
    + eapply Forall_impl; [exact Hlt|]. cbn. lia.
    + apply Forall_singleton. lia.
  - rewrite fmap_app. apply NoDup_app. split; [done|]. split.
    + intros k (j & -> & Hin)%list_elem_of_fmap. cbn.
      intros Hk%list_elem_of_singleton.
      rewrite Forall_forall in Hlt. specialize (Hlt j Hin). lia.
    + cbn. apply NoDup_singleton.
Qed.

(** Proves that a view preserves the well-formedness of the keys from
    the steps it is made of. *)
Ltac preserves_steps :=
  repeat first
    [ apply preserves_ret
    | apply preserves_raise
    | apply preserves_get_store
    | apply preserves_get_party_or_404
    | apply preserves_get_invitation_or_404
    | apply preserves_bind; [|intros ?]
    | progress cbn zeta
    | match goal with
      | |- preserves _ (if ?b then _ else _) => destruct b
      | |- preserves _ (match ?o with _ => _ end) => destruct o
      | |- preserves _ _ =>
          intros ? ?;
          first [ solve [eapply pks_wf_same; [..|eassumption]; reflexivity]
                | solve [eapply pks_wf_filter; [..|eassumption]; reflexivity]
                | solve [eapply pks_wf_append; [..|eassumption]; reflexivity] ]
      end ].

(** X12: every writing view keeps the keys of the invitations well
    formed: pairwise different and below the store's next key, whatever
    the request is and whatever the view answers. *)
Theorem invitation_pks_wf_preserved (field_ok : string → string → bool)
    (required : list string) (st : Store) (user fresh public_id : string)
    (pk : nat) (payload : gmap string string) :
  invitation_pks_wf st →
  invitation_pks_wf
    (dispatch (PartyViewSet.create field_ok required user fresh payload) st).2
  ∧ invitation_pks_wf
      (dispatch (PartyViewSet.update field_ok required user public_id payload) st).2
  ∧ invitation_pks_wf
      (dispatch (PartyViewSet.partial_update field_ok required user public_id payload)
         st).2
  ∧ invitation_pks_wf (dispatch (PartyViewSet.destroy user public_id) st).2
  ∧ invitation_pks_wf
      (dispatch (PartyInvitationViewSet.create user public_id payload) st).2
  ∧ invitation_pks_wf (dispatch (PartyInvitationViewSet.accept user pk) st).2
  ∧ invitation_pks_wf
      (dispatch (PartyInvitationViewSet.destroy user public_id pk) st).2.
Proof.
  intros Hwf.
  split; [|split; [|split; [|split; [|split; [|split]]]]];
    apply preserves_dispatch; try exact Hwf;
    unfold PartyViewSet.create, PartyViewSet.update, PartyViewSet.partial_update,
      PartyViewSet.destroy, PartyInvitationViewSet.create,
      PartyInvitationViewSet.accept, PartyInvitationViewSet.destroy,
      PartyViewSet.get_object, PartyInvitationViewSet.get_object,
      PartyInvitationViewSet.get_party, PartySerializer.is_valid,
      PartySerializer.create, PartySerializer.update,
      PartyInvitationSerializer.is_valid, PartyInvitationSerializer.create,
      invitation_accept;
    preserves_steps.
Qed.

Lemma invitation_pks_wf_preserved_witness :
  invitation_pks_wf
    (dispatch (PartyInvitationViewSet.create "u1" "P" {["receiver_public_id" := "u3"]})
       sample_store).2.
Proof.
  destruct (invitation_pks_wf_preserved any_field [] sample_store "u1" "R" "P" 1
              {["receiver_public_id" := "u3"]}) as (_ & _ & _ & _ & H & _).
  - apply (bool_decide_unpack _). vm_compute. exact I.
  - exact H.
Defined.

(** ** Creating an invitation and resolving it *)

Lemma find_app_fresh (n : nat) (l : list PartyInvitation.t) (i : PartyInvitation.t) :
  Forall (λ j, PartyInvitation.pk j < n) l →
  PartyInvitation.pk i = n →
  List.find (λ j, bool_decide (PartyInvitation.pk j = n)) (l ++ [i]) = Some i.
Proof.
  intros Hlt Hpk. induction Hlt as [|j l Hj _ IH]; cbn.
  - by rewrite bool_decide_eq_true_2.
  - rewrite bool_decide_eq_false_2 by lia. exact IH.
Qed.

Lemma filter_app_fresh (n : nat) (l : list PartyInvitation.t) (i : PartyInvitation.t) :
  Forall (λ j, PartyInvitation.pk j < n) l →
  PartyInvitation.pk i = n →
  List.filter (λ j, negb (bool_decide (PartyInvitation.pk j = n))) (l ++ [i]) = l.
Proof.
  intros Hlt Hpk. induction Hlt as [|j l Hj _ IH]; cbn.
  - by rewrite bool_decide_eq_true_2.
  - rewrite bool_decide_eq_false_2 by lia. cbn. by rewrite IH.
Qed.

Lemma invitation_create_by_owner (st : Store) (party_public_id r : string)
    (payload : gmap string string) (p : Party.t) :
  find_party party_public_id st = Some p →
  payload !! "receiver_public_id" = Some r →
  r ∈ users st →
  dispatch (PartyInvitationViewSet.create (Party.owner p) party_public_id payload) st
  = (mkResponse HTTP_201_CREATED NoData,
     mkStore (users st) (parties st)
       (invitations st ++ [PartyInvitation.mk (next_pk st) party_public_id r])
       (S (next_pk st))).
Proof.
  intros Hparty Hr Hin. pose proof (find_party_public_id _ _ _ Hparty) as Hid.
  unfold PartyInvitationViewSet.create, PartyInvitationSerializer.is_valid,
    PartyInvitationSerializer.create.
  view_unfold. rewrite Hparty.
  rewrite bool_decide_eq_false_2 by tauto.
  rewrite lookup_insert_eq, lookup_insert_ne, Hr by done.
  rewrite Hid, Hparty.
  rewrite (bool_decide_eq_true_2 (is_Some (Some p))) by eauto.
  rewrite (bool_decide_eq_true_2 (r ∈ users st)) by done.
  done.
Qed.

(** X13: an invitation can be withdrawn.  When the keys of the store are
    well formed and the owner creates an invitation, it is stored under
    the store's next key; a delete of that key by the owner or by the
    receiver, through the same party, brings the parties and the
    invitations back to what they were.  Only the next key has advanced,
    so the key is not handed out again. *)
Theorem invitation_create_then_destroy (st : Store) (user party_public_id r : string)
    (payload : gmap string string) (p : Party.t) :
  invitation_pks_wf st →
  find_party party_public_id st = Some p →
  payload !! "receiver_public_id" = Some r →
  r ∈ users st →
  user = Party.owner p ∨ user = r →
  dispatch (PartyInvitationViewSet.destroy user party_public_id (next_pk st))
    (dispatch (PartyInvitationViewSet.create (Party.owner p) party_public_id payload)
       st).2
  = (mkResponse HTTP_204_NO_CONTENT NoData,
     mkStore (users st) (parties st) (invitations st) (S (next_pk st))).
Proof.
  intros [Hlt _] Hparty Hr Hin Hmay.
  rewrite (invitation_create_by_owner st party_public_id r payload p) by done.
  cbn [snd]. unfold PartyInvitationViewSet.destroy. view_unfold.
  unfold find_invitation, find_party in *. cbn.
  rewrite (find_app_fresh (next_pk st)) by done. cbn. rewrite Hparty. cbn.
  rewrite bool_decide_eq_false_2 by (rewrite elem_of_pair; tauto).
  cbn. rewrite (filter_app_fresh (next_pk st)) by done. done.
Qed.

Lemma invitation_create_then_destroy_witness :
  dispatch (PartyInvitationViewSet.destroy "u3" "P" 2)
    (dispatch (PartyInvitationViewSet.create "u1" "P" {["receiver_public_id" := "u3"]})
       sample_store).2
  = (mkResponse HTTP_204_NO_CONTENT NoData,
     mkStore (users sample_store) (parties sample_store) (invitations sample_store) 3).
Proof.
  apply (invitation_create_then_destroy sample_store "u3" "P" "u3"
           {["receiver_public_id" := "u3"]} party_P).
  - apply (bool_decide_unpack _). vm_compute. exact I.
  - reflexivity.
  - vm_compute. reflexivity.
  - apply (bool_decide_unpack _). vm_compute. exact I.
  - right. reflexivity.
Defined.

(** X14: an invitation can be taken up.  When the keys of the store are
    well formed and the owner creates an invitation, the receiver's accept
    of the store's next key answers 201; afterwards the receiver is a
    participant of the party, whose owner is unchanged, and the
    invitations are what they were before the invitation was created. *)
Theorem invitation_create_then_accept (st : Store) (party_public_id r : string)
    (payload : gmap string string) (p : Party.t) :
  invitation_pks_wf st →
  find_party party_public_id st = Some p →
  payload !! "receiver_public_id" = Some r →
  r ∈ users st →
  ∃ st',
    dispatch (PartyInvitationViewSet.accept r (next_pk st))
      (dispatch (PartyInvitationViewSet.create (Party.owner p) party_public_id payload)
         st).2
    = (mkResponse HTTP_201_CREATED NoData, st')
    ∧ find_party party_public_id st'
      = Some (Party.mk (Party.public_id p) (Party.owner p)
                ({[r]} ∪ Party.participants p) (Party.attrs p))
    ∧ invitations st' = invitations st
    ∧ next_pk st' = S (next_pk st).
Proof.
  intros [Hlt _] Hparty Hr Hin.
  rewrite (invitation_create_by_owner st party_public_id r payload p) by done.
  cbn [snd]. eexists. split; [|split; [|split]].
  - unfold PartyInvitationViewSet.accept. view_unfold.
    unfold find_invitation. cbn.
    rewrite (find_app_fresh (next_pk st)) by done. cbn.
    rewrite bool_decide_eq_false_2 by tauto. cbn. reflexivity.
  - unfold find_party in *. cbn.
    rewrite find_on_party by (cbn; done).
    rewrite bool_decide_eq_true_2 by done. rewrite Hparty. done.
  - cbn. by rewrite (filter_app_fresh (next_pk st)).
  - done.
Qed.

Lemma invitation_create_then_accept_witness :
  ∃ st',
    dispatch (PartyInvitationViewSet.accept "u3" 2)
      (dispatch (PartyInvitationViewSet.create "u1" "P" {["receiver_public_id" := "u3"]})
         sample_store).2
    = (mkResponse HTTP_201_CREATED NoData, st')
    ∧ find_party "P" st' = Some (Party.mk "P" "u1" ({["u3"]} ∪ {["u4"]}) ∅).
Proof.
  destruct (invitation_create_then_accept sample_store "P" "u3"
              {["receiver_public_id" := "u3"]} party_P)
    as (st' & H1 & H2 & _).
  - apply (bool_decide_unpack _). vm_compute. exact I.
  - reflexivity.
  - vm_compute. reflexivity.
  - apply (bool_decide_unpack _). vm_compute. exact I.
  - exists st'. split; [exact H1|exact H2].
Defined.

(** ** Listing and creating parties *)

Lemma filter_filter_implied {A} (f g : A → bool) (l : list A) :
  (∀ x, f x = true → g x = true) →
  List.filter f (List.filter g l) = List.filter f l.
Proof.
  intros Hfg. induction l as [|x l IH]; [done|]. cbn.
  destruct (g x) eqn:G; cbn.
  - by rewrite IH.
  - destruct (f x) eqn:F; [|done]. apply Hfg in F. congruence.
Qed.

Lemma filter_sublist {A} (f : A → bool) (l : list A) : sublist (List.filter f l) l.
Proof.
  induction l as [|x l IH]; cbn; [constructor|].
  destruct (f x); by constructor.
Qed.

(** X15: the parties an actor owns are among the parties the actor can
    see.  The answer of [list_mine] is the answer of [list] restricted to
    the parties owned by the actor, so it is a sub-list of it, in the
    same order. *)
Theorem party_list_mine_within_list (st : Store) (user : string) :
  ∃ mine visible,
    dispatch (PartyViewSet.list_mine user) st
    = (mkResponse HTTP_200_OK (PartyListData mine), st)
    ∧ dispatch (PartyViewSet.list user) st
      = (mkResponse HTTP_200_OK (PartyListData visible), st)
    ∧ mine = List.filter (λ p, bool_decide (Party.owner p = user)) visible
    ∧ sublist mine visible.
Proof.
  eexists _, _. split; [reflexivity|]. split; [reflexivity|].
  assert (Heq : List.filter (λ p, bool_decide (Party.owner p = user)) (parties st)
                = List.filter (λ p, bool_decide (Party.owner p = user))
                    (List.filter (λ p, Party.can_see_party p user) (parties st))).
  { symmetry. apply filter_filter_implied. intros p Hp.
    unfold Party.can_see_party. by rewrite Hp. }
  split; [exact Heq|].
  rewrite Heq. apply filter_sublist.
Qed.

Lemma find_app_none {A} (f : A → bool) (l l' : list A) :
  List.find f l = None → List.find f (l ++ l') = List.find f l'.
Proof.
  induction l as [|x l IH]; [done|]. cbn.
  destruct (f x); [discriminate|]. exact IH.
Qed.

Lemma filter_app_none {A} (f : A → bool) (l : list A) (x : A) :
  List.find f l = None → f x = true →
  List.filter (λ y, negb (f y)) (l ++ [x]) = l.
Proof.
  intros Hnone Hx. induction l as [|y l IH]; cbn in *.
  - by rewrite Hx.
  - destruct (f y); [discriminate|]. cbn. by rewrite IH.
Qed.

(** X16: a created party can be read back and deleted again.  When the
    fresh identifier names no party yet and the create answers 201, the
    creator retrieves exactly the party of the answer under that
    identifier, every other actor is forbidden to retrieve it, and the
    creator's delete brings the parties back to what they were. *)
Theorem party_create_then_retrieve (field_ok : string → string → bool)
    (required : list string) (st st' : Store) (user fresh : string)
    (payload : gmap string string) (r : Response) :
  find_party fresh st = None →
  dispatch (PartyViewSet.create field_ok required user fresh payload) st = (r, st') →
  status_code r = HTTP_201_CREATED →
  dispatch (PartyViewSet.retrieve user fresh) st' = (mkResponse HTTP_200_OK (data r), st')
  ∧ (∀ other, other ≠ user →
       dispatch (PartyViewSet.retrieve other fresh) st'
       = (mkResponse HTTP_403_FORBIDDEN NoData, st'))
  ∧ parties (dispatch (PartyViewSet.destroy user fresh) st').2 = parties st.
Proof.
  intros Hnone Hcreate Hok.
  destruct (create_owner_is_requester field_ok required st st' user fresh payload r
              Hcreate Hok) as (a & -> & Hparties).
  assert (Hfind : find_party fresh st' = Some (Party.mk fresh user ∅ a)).
  { unfold find_party in *. rewrite Hparties, find_app_none by done.
    cbn. by rewrite bool_decide_eq_true_2. }
  split; [|split].
  - unfold PartyViewSet.retrieve, Party.can_see_party. view_unfold.
    rewrite Hfind. cbn. by rewrite bool_decide_eq_true_2.
  - intros other Hother. unfold PartyViewSet.retrieve, Party.can_see_party.
    view_unfold. rewrite Hfind. cbn.
    rewrite (bool_decide_eq_false_2 (user = other)) by congruence.
    rewrite bool_decide_eq_false_2 by apply not_elem_of_empty. done.
  - unfold PartyViewSet.destroy. view_unfold. rewrite Hfind. cbn.
    rewrite (bool_decide_eq_false_2 (user ≠ user)) by tauto.
    cbn. rewrite Hparties.
    apply (filter_app_none (λ q, bool_decide (Party.public_id q = fresh))).
    + exact Hnone.
    + cbn. by rewrite bool_decide_eq_true_2.
Qed.

Lemma party_create_then_retrieve_witness :
  dispatch (PartyViewSet.retrieve "u2" "R")
    (dispatch (PartyViewSet.create any_field [] "u2" "R" ∅) sample_store).2
  = (mkResponse HTTP_200_OK (PartyData (Party.mk "R" "u2" ∅ ∅)),
     (dispatch (PartyViewSet.create any_field [] "u2" "R" ∅) sample_store).2).
Proof.
  destruct (party_create_then_retrieve any_field [] sample_store
              (dispatch (PartyViewSet.create any_field [] "u2" "R" ∅) sample_store).2
              "u2" "R" ∅
              (mkResponse HTTP_201_CREATED (PartyData (Party.mk "R" "u2" ∅ ∅))))
    as (H & _).
  - reflexivity.
  - vm_compute. reflexivity.
  - reflexivity.
  - exact H.
Defined.

Lemma join_then_leave (ps : gset string) (r : string) :
  r ∉ ps → ({[r]} ∪ ps) ∖ {[r]} = ps.
Proof.
  intros Hout. apply set_eq. intros x.
  rewrite elem_of_difference, elem_of_union, elem_of_singleton.
  split; [tauto|]. intros Hx. split; [tauto|]. by intros ->.
Qed.

(** X17: joining and leaving cancel out.  When a receiver who is neither
    the owner nor a participant of the target party accepts an invitation
    and then removes themselves from the party, the party is stored
    exactly as it was before the accept. *)
Theorem accept_then_leave_restores_party (st : Store) (pk : nat)
    (i : PartyInvitation.t) (p : Party.t) :
  find_invitation pk st = Some i →
  find_party (PartyInvitation.party i) st = Some p →
  PartyInvitation.receiver i ≠ Party.owner p →
  PartyInvitation.receiver i ∉ Party.participants p →
  ∃ st',
    dispatch (PartyViewSet.destroy (PartyInvitation.receiver i) (PartyInvitation.party i))
      (dispatch (PartyInvitationViewSet.accept (PartyInvitation.receiver i) pk) st).2
    = (mkResponse HTTP_204_NO_CONTENT NoData, st')
    ∧ find_party (PartyInvitation.party i) st' = Some p.
Proof.
  intros Hinv Hparty Hown Hout.
  pose proof (find_party_public_id _ _ _ Hparty) as Hid.
  set (r := PartyInvitation.receiver i) in *.
  set (joined := Party.mk (Party.public_id p) (Party.owner p)
                   ({[r]} ∪ Party.participants p) (Party.attrs p)).
  assert (Haccept : ∃ st1,
    dispatch (PartyInvitationViewSet.accept r pk) st
    = (mkResponse HTTP_201_CREATED NoData, st1)
    ∧ find_party (PartyInvitation.party i) st1 = Some joined).
  { eexists. split.
    - unfold PartyInvitationViewSet.accept. view_unfold. rewrite Hinv.
      rewrite bool_decide_eq_false_2 by tauto. cbn. reflexivity.
    - unfold find_party in *. cbn.
      rewrite find_on_party by (cbn; done).
      rewrite bool_decide_eq_true_2 by done. rewrite Hparty. done. }
  destruct Haccept as (st1 & -> & Hjoined). cbn [snd].
  eexists. split.
  - unfold PartyViewSet.destroy. view_unfold. rewrite Hjoined. cbn.
    rewrite (bool_decide_eq_true_2 (Party.owner p ≠ r)) by congruence.
    rewrite bool_decide_eq_false_2
      by (intros Hn; apply Hn, elem_of_union_l, elem_of_singleton; done).
    cbn. reflexivity.
  - unfold find_party in *. cbn. rewrite Hid.
    rewrite !find_on_party by (cbn; done).
    rewrite bool_decide_eq_true_2 by done. rewrite Hjoined. cbn.
    rewrite join_then_leave by done. rewrite <- Hid. by destruct p.
Qed.

Lemma accept_then_leave_restores_party_witness :
  ∃ st',
    dispatch (PartyViewSet.destroy "u2" "P")
      (dispatch (PartyInvitationViewSet.accept "u2" 1) sample_store).2
    = (mkResponse HTTP_204_NO_CONTENT NoData, st')
    ∧ find_party "P" st' = Some party_P.
Proof.
  apply (accept_then_leave_restores_party sample_store 1 invitation_1 party_P).
  - reflexivity.
  - reflexivity.
  - discriminate.
  - intros Hin. apply (bool_decide_pack _) in Hin. vm_compute in Hin. exact Hin.
Defined.
